(** * Quake3 protocol client: decode, validate and sanitise

    A shallow embedding of [opengsq/protocols/quake3.py].  Python [str]
    values are sequences of Unicode code points, [bytes] values are
    sequences of bytes, a [dict] is a finite map, and a raised exception
    is the [Raise] branch of a result type. *)

From Stdlib Require Import Strings.String Strings.Ascii Strings.Byte.
From stdpp Require Import gmap list fin_maps option.

Local Open Scope N_scope.
Local Open Scope nat_scope.

(** ** Python values *)

(** A character of a [str]: its code point. *)
Abbreviation codepoint := N (only parsing).

(** A [str]. *)
Abbreviation str := (list N) (only parsing).

(** A [bytes] object. *)
Abbreviation bytes := (list byte) (only parsing).

(** The [str] of an ASCII literal of this file. *)
Definition py (s : string) : str :=
  (λ a, N_of_ascii a) <$> list_ascii_of_string s.

(** The [bytes] of an ASCII literal [b"..."]. *)
Definition pyb (s : string) : bytes := list_byte_of_string s.

(** The characters the colour pattern names. *)
Definition LF : codepoint := 10%N.       (* "\n" *)
Definition caret : codepoint := 94%N.    (* "^"  *)
Definition letter_X : codepoint := 88%N. (* "X"  *)

(** ** The fragment of [re] the protocol uses *)

Module re.

(** Pattern syntax: what [re.compile] builds for the patterns of this
    program.  No flag is passed, so [Dot] is the dot without DOTALL. *)
Inductive pattern : Type :=
| Chr (c : codepoint)              (* a literal character, escaped or not *)
| Dot                              (* [.]: any character but the line feed *)
| Seq (p q : pattern)              (* [pq] *)
| Alt (p q : pattern)              (* [p|q], [p] is tried first *)
| Rep (n : nat) (p : pattern).     (* [p{n}] *)

(** Backtracking matcher in continuation-passing style: [matchk p s k]
    matches [p] at the head of [s] and hands the rest of [s] to [k]; an
    alternative that makes [k] fail is abandoned for the next one. *)
Fixpoint matchk {A} (p : pattern) (s : str) (k : str → option A) : option A :=
  match p with
  | Chr c =>
      match s with
      | x :: s' => if N.eqb x c then k s' else None
      | [] => None
      end
  | Dot =>
      match s with
      | x :: s' => if N.eqb x LF then None else k s'
      | [] => None
      end
  | Seq p q => matchk p s (λ s', matchk q s' k)
  | Alt p q =>
      match matchk p s k with
      | Some r => Some r
      | None => matchk q s k
      end
  | Rep n p =>
      (fix times (n : nat) (s : str) : option A :=
         match n with
         | O => k s
         | S n' => matchk p s (λ s', times n' s')
         end) n s
  end.

(** [pattern.match(s)]: the length of the match at the head of [s]. *)
Definition match_len (p : pattern) (s : str) : option nat :=
  matchk p s (λ rest, Some (length s - length rest)).

(** [pattern.finditer(text)] as the list of the spans [(start, end)] of the
    successive non-overlapping matches, leftmost first.  [s] is the text
    from index [pos] on; [skip] counts the characters of [s] that still
    belong to the match found last.  An empty match is reported and the
    scan moves on by one character. *)
Fixpoint finditer_from (p : pattern) (pos skip : nat) (s : str)
  : list (nat * nat) :=
  match s with
  | [] =>
      match skip, match_len p [] with
      | O, Some _ => [(pos, pos)]
      | _, _ => []
      end
  | _ :: t =>
      match skip with
      | S skip' => finditer_from p (S pos) skip' t
      | O =>
          match match_len p s with
          | Some (S n) => (pos, pos + S n) :: finditer_from p (S pos) n t
          | Some O => (pos, pos) :: finditer_from p (S pos) 0 t
          | None => finditer_from p (S pos) 0 t
          end
      end
  end.

Definition finditer (p : pattern) (text : str) : list (nat * nat) :=
  finditer_from p 0 0 text.

(** Spans moved to the right by [d]. *)
Definition shift (d : nat) (spans : list (nat * nat)) : list (nat * nat) :=
  (λ ab, (ab.1 + d, ab.2 + d)) <$> spans.

(** The assembly step of [pattern.sub]: the text between the matches is
    copied, each match is replaced by [repl]; [last] is the end of the
    previous match. *)
Fixpoint splice (repl : str) (last : nat) (spans : list (nat * nat))
    (text : str) : str :=
  match spans with
  | [] => drop last text
  | (a, b) :: spans' =>
      take (a - last) (drop last text) ++ repl ++ splice repl b spans' text
  end.

(** [pattern.sub(repl, text)] for a literal replacement string. *)
Definition sub (p : pattern) (repl text : str) : str :=
  splice repl 0 (finditer p text) text.

End re.

(** ** Quake3.strip_colors *)

(** [re.compile("\\^(X.{6}|.)")] *)
Definition color_pattern : re.pattern :=
  re.Seq (re.Chr caret)
         (re.Alt (re.Seq (re.Chr letter_X) (re.Rep 6 re.Dot)) re.Dot).

Definition strip_colors (text : str) : str :=
  re.sub color_pattern [] text.

(** ** The colour pass in the words of the specification *)

(** What the pattern's dot accepts: a character of a colour code is any
    character but the line feed. *)
Definition code_char (c : codepoint) : bool := negb (c =? LF)%N.

(** [t] begins with a single control character. *)
Definition control_char (t : str) : bool :=
  match t with
  | c :: _ => code_char c
  | [] => false
  end.

(** [t] begins with a 7-character extended colour code: the letter X plus
    six characters. *)
Definition extended_code (t : str) : bool :=
  match t with
  | x :: c1 :: c2 :: c3 :: c4 :: c5 :: c6 :: _ =>
      (x =? letter_X)%N && forallb code_char [c1; c2; c3; c4; c5; c6]
  | _ => false
  end.

(** The number of characters that follow a marker and go with it. *)
Definition code_length (t : str) : nat :=
  if extended_code t then 7 else if control_char t then 1 else 0.

(** One pass from left to right.  [skip] counts the characters still to
    be dropped for the colour code met last. *)
Fixpoint color_pass (skip : nat) (text : str) : str :=
  match text with
  | [] => []
  | c :: t =>
      match skip with
      | S skip' => color_pass skip' t
      | O =>
          if (c =? caret)%N then
            match code_length t with
            | S n => color_pass (S n) t
            | O => c :: color_pass 0 t
            end
          else c :: color_pass 0 t
      end
  end.

Definition strip_colors_spec (text : str) : str := color_pass 0 text.

(** A string in which no marker is followed by the character it needs:
    every caret is last or stands before a line feed. *)
Fixpoint no_color_code (text : str) : bool :=
  match text with
  | [] => true
  | c :: t => negb ((c =? caret)%N && control_char t) && no_color_code t
  end.

(** ** Exceptions *)

Inductive exception : Type :=
| InvalidPacketException (msg : str)   (* opengsq.exceptions *)
| TruncatedPacketError                 (* a cursor read past the buffer end *)
| TimeoutError                         (* no reply within the deadline *)
| TransportError                       (* socket failure *)
| TypeError.                           (* [re] applied to what is no text *)

(** The outcome of a call: the value returned or the exception raised. *)
Inductive result (A : Type) : Type :=
| Ok (a : A)
| Raise (e : exception).
Arguments Ok {A} a.
Arguments Raise {A} e.

#[global] Instance result_ret : MRet result := λ A a, Ok a.
#[global] Instance result_bind : MBind result := λ A B f m,
  match m with
  | Ok a => f a
  | Raise e => Raise e
  end.

(** ** The objects of the protocol *)

(** [BinaryReader]: a response buffer and the offset of the next read. *)
Record BinaryReader : Type := {
  buffer : bytes;
  stream_position : nat;
}.

(** [BinaryReader(data)] *)
Definition new_reader (data : bytes) : BinaryReader :=
  {| buffer := data; stream_position := 0 |}.

(** The info map: field name to field value, both text. *)
Abbreviation InfoMap := (gmap (list N) (list N)) (only parsing).

(** A field of a player record: text or a number. *)
Inductive value : Type :=
| Text (s : str)
| Number (n : Z).

Abbreviation PlayerRecord := (gmap (list N) value) (only parsing).

(** The dictionary [get_status] returns. *)
Record Status : Type := {
  info : InfoMap;
  players : list PlayerRecord;
}.

(** The attributes of the instance that the methods below read. *)
Record Quake3 : Type := {
  _delimiter1 : bytes;
  _request_header : bytes;
  _response_header : str;
}.

(** [Quake3.__init__]: [base] is the object as [super().__init__] leaves
    it; the two headers are then overwritten. *)
Definition __init__ (base : Quake3) : Quake3 :=
  {| _delimiter1 := _delimiter1 base;
     _request_header := pyb "getstatus";
     _response_header := py "statusResponse" ++ [LF] |}.

(** What the methods below call and this file's sources do not hold:
    [BinaryReader.read_string], which reads at the cursor and moves it,
    the transport [_connect_and_send], and the decoding methods inherited
    from [Quake2].  A method that moves the cursor returns the cursor
    after the call. *)
Class Quake2 : Type := {
  read_string : BinaryReader → bytes → result (str * BinaryReader);
  _connect_and_send : bytes → result bytes;
  _get_response_binary_reader : Quake3 → result BinaryReader;
  _parse_info : Quake3 → BinaryReader → result (InfoMap * BinaryReader);
  _parse_players :
    Quake3 → BinaryReader → result (list PlayerRecord * BinaryReader);
}.

(** ** Quake3.get_info *)

(** The header [get_info] expects: its local [response_header]. *)
Definition info_response_header : str := py "infoResponse" ++ [LF].

(** f"Packet header mismatch. Received: {header}. Expected: {response_header}." *)
Definition header_mismatch (header response_header : str) : str :=
  py "Packet header mismatch. Received: " ++ header
  ++ py ". Expected: " ++ response_header ++ py ".".

Definition get_info `{Quake2} (self : Quake3) (strip_color : bool)
  : result InfoMap :=
  response_data ← _connect_and_send (pyb "getinfo opengsq");
  let br := new_reader response_data in
  '(header, br) ← read_string br (_delimiter1 self);
  let response_header := info_response_header in
  if bool_decide (header ≠ response_header) then
    Raise (InvalidPacketException (header_mismatch header response_header))
  else
    '(info, br) ← _parse_info self br;
    if negb strip_color then Ok info
    else
      let info :=
        match info !! py "hostname" with
        | Some hostname => <[py "hostname" := strip_colors hostname]> info
        | None => info
        end in
      Ok info.

(** ** Quake3.get_status *)

(** The body of the loop over the players: [strip_colors] on the name,
    if there is one; [re] raises [TypeError] on a value that is no text. *)
Definition strip_player_name (player : PlayerRecord) : result PlayerRecord :=
  match player !! py "name" with
  | Some (Text name) => Ok (<[py "name" := Text (strip_colors name)]> player)
  | Some (Number _) => Raise TypeError
  | None => Ok player
  end.

(** [for player in status["players"]: ...] *)
Fixpoint strip_player_names (players : list PlayerRecord)
  : result (list PlayerRecord) :=
  match players with
  | [] => Ok []
  | player :: rest =>
      player ← strip_player_name player;
      rest ← strip_player_names rest;
      Ok (player :: rest)
  end.

Definition get_status `{Quake2} (self : Quake3) (strip_color : bool)
  : result Status :=
  br ← _get_response_binary_reader self;
  '(info, br) ← _parse_info self br;
  '(players, br) ← _parse_players self br;
  let status := {| info := info; players := players |} in
  if negb strip_color then Ok status
  else
    let info :=
      match info !! py "sv_hostname" with
      | Some sv_hostname =>
          <[py "sv_hostname" := strip_colors sv_hostname]> info
      | None => info
      end in
    players ← strip_player_names players;
    Ok {| info := info; players := players |}.

(** A returned map that is the parsed one except possibly at [key]: every
    other key reads as parsed, and with [key] absent nothing differs. *)
Definition same_but_at {V} (key : str) (parsed returned : gmap (list N) V)
  : Prop :=
  (∀ k, k ≠ key → returned !! k = parsed !! k)
  ∧ (parsed !! key = None → returned = parsed).

(** [needle in hay] on text. *)
Definition contains (needle hay : str) : Prop :=
  ∃ before after, hay = before ++ needle ++ after.

(** ** The inherited decoding, from the specification *)

Module spec_model.

#[global] Instance byte_eq_dec : EqDecision byte := Byte.byte_eq_dec.

(** Modelled from the spec: the text decoding of the Binary Cursor
    (module [opengsq.binary_reader] is not among the sources).  A span is
    "decoded as text" and the encoding is not named; the headers and the
    scenarios are 7-bit text, on which every ASCII-compatible encoding
    reads each byte as the character of the same number. *)
Definition decode (span : bytes) : str := Byte.to_N <$> span.

(** Modelled from the spec: the search behind [read_delimited] of the
    Binary Cursor (not among the sources), the index of "the next
    occurrence of the delimiter" in the unread bytes. *)
Fixpoint find_delimiter (delimiter unread : bytes) : option nat :=
  if bool_decide (delimiter `prefix_of` unread) then Some 0
  else
    match unread with
    | [] => None
    | _ :: rest => S <$> find_delimiter delimiter rest
    end.

(** Modelled from the spec: [read_delimited] of the Binary Cursor (not
    among the sources).  It "consumes bytes from the current offset up to
    (not including) the next occurrence of delimiter, advances offset past
    the delimiter, returns the consumed span decoded as text", and fails
    with [TruncatedPacketError] "if the delimiter never occurs before
    buffer end". *)
Definition read_delimited (cursor : BinaryReader) (delimiter : bytes)
  : result (str * BinaryReader) :=
  let unread := drop (stream_position cursor) (buffer cursor) in
  match find_delimiter delimiter unread with
  | Some n =>
      Ok (decode (take n unread),
          {| buffer := buffer cursor;
             stream_position := stream_position cursor + n + length delimiter |})
  | None => Raise TruncatedPacketError
  end.

(** Modelled from the spec: [remaining] of the Binary Cursor (not among
    the sources), "all unread bytes without advancing". *)
Definition remaining (cursor : BinaryReader) : bytes :=
  drop (stream_position cursor) (buffer cursor).

(** Modelled from the spec: the tokenisation of the Status Decoder (class
    [Quake2] is not among the sources), which "splits the remaining payload
    on a field delimiter into tokens".  [skip] counts the bytes of the
    delimiter still to pass, [token] is the token being read. *)
Fixpoint split_from (delimiter : bytes) (skip : nat) (token payload : bytes)
  : list bytes :=
  match payload with
  | [] => [token]
  | b :: rest =>
      match skip with
      | S skip' => split_from delimiter skip' token rest
      | O =>
          if bool_decide (delimiter `prefix_of` payload) then
            token :: split_from delimiter (length delimiter - 1) [] rest
          else split_from delimiter 0 (token ++ [b]) rest
      end
  end.

(** Modelled from the spec: the pairing of the Status Decoder (class
    [Quake2] is not among the sources): "tokens are consumed in pairs (key,
    value); an odd trailing token with no pair is dropped silently", and
    the info map is "last-write-wins on duplicate keys". *)
Fixpoint pair_tokens (tokens : list str) (info : gmap (list N) (list N))
  : gmap (list N) (list N) :=
  match tokens with
  | key :: value :: rest => pair_tokens rest (<[key := value]> info)
  | _ => info
  end.

(** Modelled from the spec: [decode_info] of the Status Decoder, the
    inherited [_parse_info] (class [Quake2] is not among the sources).
    Values are "raw strings", and "an entirely empty payload yields an
    empty InfoMap". *)
Definition decode_info (self : Quake3) (cursor : BinaryReader)
  : result (gmap (list N) (list N) * BinaryReader) :=
  let tokens := split_from (_delimiter1 self) 0 [] (remaining cursor) in
  Ok (pair_tokens (decode <$> tokens) ∅, cursor).

(** Modelled from the spec: [validate_header] of the Packet Codec (class
    [Quake2] is not among the sources), which "reads a delimiter-terminated
    token from the cursor and fails with InvalidPacketError if it does not
    equal expectedHeader exactly", "with the received vs. expected value
    in the message". *)
Definition validate_header (delimiter : bytes) (cursor : BinaryReader)
    (expectedHeader : str) : result BinaryReader :=
  '(token, cursor) ← read_delimited cursor delimiter;
  if bool_decide (token = expectedHeader) then Ok cursor
  else Raise (InvalidPacketException (header_mismatch token expectedHeader)).

(** Modelled from the spec: the inherited [_get_response_binary_reader]
    (class [Quake2] is not among the sources): one exchange through the
    transport for the request header, then [validate_header] against "the
    status header token". *)
Definition get_response_binary_reader (transport : bytes → result bytes)
    (self : Quake3) : result BinaryReader :=
  response_data ← transport (_request_header self);
  validate_header (_delimiter1 self) (new_reader response_data)
    (_response_header self).

(** The decoding of the specification as the inherited interface.  The
    transport and the decoder of the player lines stay parameters. *)
Definition quake2 (transport : bytes → result bytes)
    (parse_players :
       Quake3 → BinaryReader
       → result (list (gmap (list N) value) * BinaryReader))
  : Quake2 :=
  {| read_string := read_delimited;
     _connect_and_send := transport;
     _get_response_binary_reader := get_response_binary_reader transport;
     _parse_info := decode_info;
     _parse_players := parse_players |}.

End spec_model.

(** ** The scenarios of the specification *)

(** The object a caller holds: field delimiter [b"\\"]. *)
Definition quake3 : Quake3 :=
  __init__ {| _delimiter1 := pyb "\";
              _request_header := [];
              _response_header := [] |}.

(** b"infoResponse\n\\hostname\\^1Red^7Server\\gametype\\ffa" *)
Definition info_response : bytes :=
  pyb "infoResponse" ++ [x0a] ++ pyb "\hostname\^1Red^7Server\gametype\ffa".

(** A response with the header "wrongResponse\n". *)
Definition wrong_response : bytes :=
  pyb "wrongResponse" ++ [x0a] ++ pyb "\hostname\^1Red^7Server\gametype\ffa".

(** A status response, and a decoder of player lines that finds one
    player in it. *)
Definition status_response : bytes :=
  pyb "statusResponse" ++ [x0a] ++ pyb "\sv_hostname\^1Red^7Server\mapname\q3dm17".

Definition one_player (self : Quake3) (br : BinaryReader)
  : result (list (gmap (list N) value) * BinaryReader) :=
  Ok ([ {[ py "frags" := Number 3; py "ping" := Number 40;
           py "name" := Text (py "^4Blue^7Bot") ]} ], br).

(** The server of a scenario: it answers every request with [response]. *)
Definition server (response : bytes) : Quake2 :=
  spec_model.quake2 (λ _, Ok response) one_player.

(** A decoder of player lines that finds one player whose name is a
    number, and a server that answers with it; a transport that times
    out. *)
Definition numbered_player (self : Quake3) (br : BinaryReader)
  : result (list (gmap (list N) value) * BinaryReader) :=
  Ok ([ {[ py "frags" := Number 3; py "name" := Number 7 ]} ], br).

Definition numbered_server (response : bytes) : Quake2 :=
  spec_model.quake2 (λ _, Ok response) numbered_player.

Definition silent_server : Quake2 :=
  spec_model.quake2 (λ _, Raise TimeoutError) one_player.

(** An info response of a server whose host name holds no colour code. *)
Definition plain_response : bytes :=
  pyb "infoResponse" ++ [x0a] ++ pyb "\hostname\Server\gametype\ffa".

(** * Properties of the matcher *)

Module re_facts.
Import re.

(** Whatever the matcher hands to its continuation is a suffix of the
    string it was given. *)
Lemma matchk_suffix {A} (p : pattern) :
  ∀ (s : str) (k : str → option A) (r : A),
    matchk p s k = Some r → ∃ rest, rest `suffix_of` s ∧ k rest = Some r.
Proof.
  induction p as [c| |p IHp q IHq|p IHp q IHq|n p IHp]; intros s k r; simpl.
  - destruct s as [|x s']; [done|]. destruct (x =? c)%N; [|done].
    intros Hk. exists s'. split; [apply suffix_cons_r; done|done].
  - destruct s as [|x s']; [done|]. destruct (x =? LF)%N; [done|].
    intros Hk. exists s'. split; [apply suffix_cons_r; done|done].
  - intros H. apply IHp in H as (s1 & Hs1 & H).
    apply IHq in H as (s2 & Hs2 & H).
    exists s2. split; [by etrans|done].
  - destruct (matchk p s k) eqn:E.
    + intros [= <-]. by apply IHp.
    + apply IHq.
  - revert s. induction n as [|n IHn]; intros s.
    + intros Hk. by exists s.
    + intros H. apply IHp in H as (s1 & Hs1 & H).
      apply IHn in H as (s2 & Hs2 & H).
      exists s2. split; [by etrans|done].
Qed.

(** A match is never longer than the string. *)
Lemma match_len_le (p : pattern) (s : str) (n : nat) :
  match_len p s = Some n → n ≤ length s.
Proof.
  unfold match_len. intros H.
  apply matchk_suffix in H as (rest & _ & [= <-]). lia.
Qed.

(** The matches do not depend on where the text starts. *)
Lemma finditer_from_shift (p : pattern) (d : nat) :
  ∀ (s : str) (pos skip : nat),
    finditer_from p (pos + d) skip s = shift d (finditer_from p pos skip s).
Proof.
  induction s as [|c t IH]; intros pos skip; simpl.
  - destruct skip; [destruct (match_len p [])|]; done.
  - destruct skip as [|skip]; [|apply (IH (S pos))].
    destruct (match_len p (c :: t)) as [[|n]|]; simpl;
      rewrite <- ?(IH (S pos)); [done| |done].
    f_equal. f_equal. lia.
Qed.

(** Skipping the rest of a match is dropping it. *)
Lemma finditer_from_skip (p : pattern) :
  ∀ (skip : nat) (s : str) (pos : nat),
    skip ≤ length s →
    finditer_from p pos skip s = finditer_from p (pos + skip) 0 (drop skip s).
Proof.
  induction skip as [|skip IH]; intros s pos Hlen.
  - by rewrite Nat.add_0_r, drop_0.
  - destruct s as [|c t]; simpl in *; [lia|].
    rewrite IH by lia. f_equal. lia.
Qed.

Corollary finditer_from_0 (p : pattern) (d : nat) (s : str) :
  finditer_from p d 0 s = shift d (finditer p s).
Proof. apply (finditer_from_shift p d s 0 0). Qed.

Lemma splice_shift (repl pre text : str) :
  ∀ (spans : list (nat * nat)) (last : nat),
    splice repl (last + length pre) (shift (length pre) spans) (pre ++ text)
    = splice repl last spans text.
Proof.
  induction spans as [|[a b] spans IH]; intros last; simpl.
  - by rewrite Nat.add_comm, <- drop_drop, drop_app_length.
  - rewrite IH. f_equal.
    rewrite (Nat.add_comm last), <- drop_drop, drop_app_length.
    f_equal. lia.
Qed.

(** Text before the first match is copied as it is. *)
Lemma splice_copy (repl pre text : str) (spans : list (nat * nat)) :
  splice repl 0 (shift (length pre) spans) (pre ++ text)
  = pre ++ splice repl (length pre) (shift (length pre) spans) (pre ++ text).
Proof.
  destruct spans as [|[a b] spans]; simpl.
  - by rewrite drop_0, drop_app_length.
  - rewrite drop_0, drop_app_length, Nat.sub_0_r.
    rewrite take_app_ge by lia. by rewrite <- app_assoc.
Qed.

Lemma splice_after (repl pre text : str) (d : nat) (spans : list (nat * nat)) :
  length pre = d →
  splice repl d (shift d spans) (pre ++ text) = splice repl 0 spans text.
Proof. intros <-. apply (splice_shift repl pre text spans 0). Qed.

(** The spans of [finditer], unfolded at the head of the text. *)
Lemma finditer_cons (p : pattern) (c : codepoint) (t : str) :
  finditer p (c :: t) =
    match match_len p (c :: t) with
    | Some (S n) => (0, S n) :: shift (S n) (finditer p (drop n t))
    | Some O => (0, 0) :: shift 1 (finditer p t)
    | None => shift 1 (finditer p t)
    end.
Proof.
  unfold finditer at 1. simpl.
  destruct (match_len p (c :: t)) as [[|n]|] eqn:E.
  - by rewrite finditer_from_0.
  - apply match_len_le in E. simpl in E.
    by rewrite finditer_from_skip, finditer_from_0 by lia.
  - by rewrite finditer_from_0.
Qed.

Lemma sub_nil (p : pattern) (repl : str) :
  sub p repl [] = match match_len p [] with Some _ => repl | None => [] end.
Proof.
  unfold sub, finditer. simpl. destruct (match_len p []); simpl; [|done].
  by rewrite app_nil_r.
Qed.

(** [sub] unfolded at the head of the text. *)
Lemma sub_cons (p : pattern) (repl : str) (c : codepoint) (t : str) :
  sub p repl (c :: t) =
    match match_len p (c :: t) with
    | Some (S n) => repl ++ sub p repl (drop n t)
    | Some O => repl ++ c :: sub p repl t
    | None => c :: sub p repl t
    end.
Proof.
  unfold sub. rewrite finditer_cons.
  destruct (match_len p (c :: t)) as [[|n]|] eqn:E.
  - simpl. f_equal.
    rewrite (splice_copy repl [c] t). simpl. f_equal.
    by apply (splice_after repl [c] t).
  - apply match_len_le in E. simpl in E.
    simpl. f_equal.
    rewrite <- (take_drop n t) at 2.
    apply (splice_after repl (c :: take n t) (drop n t)).
    simpl. rewrite length_take. lia.
  - rewrite (splice_copy repl [c] t). simpl. f_equal.
    by apply (splice_after repl [c] t).
Qed.

Lemma elem_of_shift (d a b : nat) (spans : list (nat * nat)) :
  (a, b) ∈ spans → (a + d, b + d) ∈ shift d spans.
Proof. intros H. unfold shift. apply list_elem_of_fmap. by exists (a, b). Qed.

End re_facts.

(** * Properties of strip_colors *)

Section strip_colors_facts.
Import re re_facts.

Lemma extended_code_length (t : str) :
  extended_code t = true → 7 ≤ length t.
Proof.
  do 7 (destruct t as [|? t]; [done|]). simpl. lia.
Qed.

Lemma control_char_length (t : str) :
  control_char t = true → 1 ≤ length t.
Proof. destruct t; [done|]. simpl. lia. Qed.

(** The matcher on the compiled pattern, for a continuation that accepts
    whatever is left: the extended branch is tried first, the single
    character second. *)
Lemma color_matchk {A} (f : str → A) (s : str) :
  matchk color_pattern s (λ rest, Some (f rest)) =
    match s with
    | c :: t =>
        if (c =? caret)%N then
          if extended_code t then Some (f (drop 7 t))
          else if control_char t then Some (f (drop 1 t))
          else None
        else None
    | [] => None
    end.
Proof.
  unfold color_pattern, extended_code, control_char, code_char.
  destruct s as [|c t]; [done|]. simpl.
  destruct (c =? caret)%N; [|done].
  destruct t as [|x t]; [done|]. simpl.
  destruct (x =? letter_X)%N eqn:EX; simpl.
  - assert ((x =? LF)%N = false) as ->
        by (apply N.eqb_eq in EX; subst x; done).
    simpl.
    do 6 (let c := fresh "c" in
          destruct t as [|c t]; simpl; [done|];
          destruct (c =? LF)%N; simpl; [by repeat case_match|]).
    done.
  - destruct (x =? LF)%N; simpl; by repeat case_match.
Qed.

(** What the compiled pattern matches at the head of a string: a marker
    and the colour code that follows it. *)
Lemma color_match (s : str) :
  match_len color_pattern s =
    match s with
    | c :: t =>
        if (c =? caret)%N then
          match code_length t with
          | S n => Some (S (S n))
          | O => None
          end
        else None
    | [] => None
    end.
Proof.
  unfold match_len. rewrite color_matchk. unfold code_length.
  destruct s as [|c t]; [done|].
  destruct (c =? caret)%N; [|done].
  destruct (extended_code t) eqn:E7.
  - apply extended_code_length in E7. f_equal.
    rewrite length_drop. simpl. lia.
  - destruct (control_char t) eqn:E1; [|done].
    apply control_char_length in E1. f_equal.
    rewrite length_drop. simpl. lia.
Qed.

Lemma strip_colors_nil : strip_colors [] = [].
Proof. done. Qed.

(** The pass at the head of the text: a marker goes with its code, any
    other character stays. *)
Lemma strip_colors_cons (c : codepoint) (t : str) :
  strip_colors (c :: t) =
    if (c =? caret)%N then
      match code_length t with
      | S n => strip_colors (drop (S n) t)
      | O => c :: strip_colors t
      end
    else c :: strip_colors t.
Proof.
  unfold strip_colors. rewrite sub_cons, color_match.
  destruct (c =? caret)%N; [|done]. by destruct (code_length t).
Qed.

Lemma code_length_le (t : str) : code_length t ≤ length t.
Proof.
  unfold code_length.
  destruct (extended_code t) eqn:E7; [by apply extended_code_length|].
  destruct (control_char t) eqn:E1; [by apply control_char_length|lia].
Qed.

Lemma code_length_cases (t : str) :
  code_length t = 0 ∧ control_char t = false
  ∨ code_length t = 1 ∧ control_char t = true ∧ extended_code t = false
  ∨ code_length t = 7 ∧ control_char t = true ∧ extended_code t = true.
Proof.
  unfold code_length.
  destruct (extended_code t) eqn:E7; [|destruct (control_char t); auto].
  right; right. repeat split.
  destruct t as [|x t]; [done|]. simpl in *.
  do 6 (destruct t as [|? t]; [done|]).
  apply andb_prop in E7 as [->%N.eqb_eq _]. done.
Qed.

(** Induction along the pass: the text after a kept character, or the
    text after a marker and its code. *)
Lemma strip_colors_ind (P : str → Prop) :
  P [] →
  (∀ c t, (c =? caret)%N && control_char t = false → P t → P (c :: t)) →
  (∀ t n, code_length t = S n → P (drop (S n) t) → P (caret :: t)) →
  ∀ text, P text.
Proof.
  intros Hnil Hkeep Hcode text.
  remember (length text) as len eqn:Hlen.
  revert text Hlen. induction len as [len IH] using lt_wf_ind.
  intros [|c t] Hlen; [done|]. simpl in Hlen.
  destruct (c =? caret)%N eqn:Ec.
  - apply N.eqb_eq in Ec as ->.
    destruct (code_length t) as [|n] eqn:En.
    + apply Hkeep; [|apply (IH (length t)); [lia|done]].
      destruct (code_length_cases t) as [[_ ->]|[[? _]|[? _]]]; [done|lia..].
    + apply (Hcode t n En), (IH (length (drop (S n) t))); [|done].
      rewrite length_drop. lia.
  - apply Hkeep; [by rewrite Ec|]. apply (IH (length t)); [lia|done].
Qed.

Lemma color_pass_skip (skip : nat) :
  ∀ text, color_pass skip text = color_pass 0 (drop skip text).
Proof.
  induction skip as [|skip IH]; intros [|c t]; try done.
  simpl. apply IH.
Qed.

Lemma strip_colors_spec_cons (c : codepoint) (t : str) :
  strip_colors_spec (c :: t) =
    if (c =? caret)%N then
      match code_length t with
      | S n => strip_colors_spec (drop (S n) t)
      | O => c :: strip_colors_spec t
      end
    else c :: strip_colors_spec t.
Proof.
  unfold strip_colors_spec. simpl.
  destruct (c =? caret)%N; [|done].
  destruct (code_length t); [done|]. apply color_pass_skip.
Qed.

(** C5: on every string, [strip_colors] is the one pass from left to right
    that drops each marker together with the single control character or
    the 7-character extended code after it and copies every other
    character; being a total function, it fails on no input. *)
Theorem strip_colors_refines_spec (text : str) :
  strip_colors text = strip_colors_spec text.
Proof.
  induction text as [|c t Hc IH|t n Hn IH] using strip_colors_ind.
  - done.
  - rewrite strip_colors_cons, strip_colors_spec_cons, IH.
    destruct (c =? caret)%N; [|done].
    destruct (code_length_cases t) as [[-> _]|[[_ [E _]]|[_ [E _]]]];
      [done|by rewrite E in Hc..].
  - by rewrite strip_colors_cons, strip_colors_spec_cons, Hn, IH.
Qed.

(** Where no marker has a code to go with, nothing is removed. *)
Lemma strip_colors_no_color_code (text : str) :
  no_color_code text = true → strip_colors text = text.
Proof.
  induction text as [|c t IH]; [done|]. simpl.
  intros [Hc Ht]%andb_prop. apply negb_true_iff in Hc.
  rewrite strip_colors_cons, (IH Ht).
  destruct (c =? caret)%N; [|done].
  destruct (code_length_cases t) as [[-> _]|[[_ [E _]]|[_ [E _]]]];
    [done|by rewrite E in Hc..].
Qed.

(** The pass leaves no marker with a code behind. *)
Lemma no_color_code_strip_colors (text : str) :
  no_color_code (strip_colors text) = true.
Proof.
  induction text as [|c t Hc IH|t n Hn IH] using strip_colors_ind.
  - done.
  - assert (strip_colors (c :: t) = c :: strip_colors t) as ->.
    { rewrite strip_colors_cons. destruct (c =? caret)%N; [|done].
      by destruct (code_length_cases t) as [[-> _]|[[_ [E _]]|[_ [E _]]]];
        [|rewrite E in Hc..]. }
    simpl. rewrite IH, andb_true_r. apply negb_true_iff.
    destruct (c =? caret)%N; [|done]. simpl in *.
    destruct t as [|x t']; [done|].
    rewrite strip_colors_cons. simpl in Hc.
    unfold code_char in Hc. apply negb_false_iff, N.eqb_eq in Hc as ->.
    done.
  - by rewrite strip_colors_cons, N.eqb_refl, Hn.
Qed.

(** C3: [strip_colors] is idempotent. *)
Theorem strip_colors_idempotent (x : str) :
  strip_colors (strip_colors x) = strip_colors x.
Proof. apply strip_colors_no_color_code, no_color_code_strip_colors. Qed.

Lemma no_caret_before_char (text : str) :
  (∀ i, text !! i = Some caret → text !! S i = None) →
  no_color_code text = true.
Proof.
  induction text as [|c t IH]; [done|]. intros H. simpl.
  rewrite IH by (intros i; apply (H (S i))).
  rewrite andb_true_r. apply negb_true_iff.
  destruct (c =? caret)%N eqn:Ec; [|done].
  apply N.eqb_eq in Ec as ->. specialize (H 0 eq_refl).
  by destruct t.
Qed.

(** C4: a string in which no caret is followed by a character comes back
    from [strip_colors] unchanged. *)
Theorem strip_colors_marker_free (text : str) :
  (∀ i, text !! i = Some caret → text !! S i = None) →
  strip_colors text = text.
Proof. intros H. by apply strip_colors_no_color_code, no_caret_before_char. Qed.

Lemma strip_colors_marker_free_witness :
  strip_colors (py "Server^") = py "Server^".
Proof.
  apply strip_colors_marker_free.
  intros i. do 7 (destruct i as [|i]; [done|]). done.
Defined.

(** ** Markers without a code, and the spans of the removed codes *)

Lemma strip_colors_keep (c : codepoint) (t : str) :
  (c =? caret)%N && control_char t = false →
  strip_colors (c :: t) = c :: strip_colors t.
Proof.
  intros Hc. rewrite strip_colors_cons. destruct (c =? caret)%N; [|done].
  by destruct (code_length_cases t) as [[-> _]|[[_ [E _]]|[_ [E _]]]];
    [|rewrite E in Hc..].
Qed.

Lemma strip_colors_code (t : str) (n : nat) :
  code_length t = S n →
  strip_colors (caret :: t) = strip_colors (drop (S n) t).
Proof. intros Hn. by rewrite strip_colors_cons, N.eqb_refl, Hn. Qed.

Lemma finditer_keep (c : codepoint) (t : str) :
  (c =? caret)%N && control_char t = false →
  finditer color_pattern (c :: t) = shift 1 (finditer color_pattern t).
Proof.
  intros Hc. rewrite finditer_cons, color_match.
  destruct (c =? caret)%N; [|done].
  by destruct (code_length_cases t) as [[-> _]|[[_ [E _]]|[_ [E _]]]];
    [|rewrite E in Hc..].
Qed.

Lemma finditer_code (t : str) (n : nat) :
  code_length t = S n →
  finditer color_pattern (caret :: t)
  = (0, S (S n)) :: shift (S (S n)) (finditer color_pattern (drop (S n) t)).
Proof. intros Hn. by rewrite finditer_cons, color_match, N.eqb_refl, Hn. Qed.

Lemma elem_of_shift_inv (d a b : nat) (spans : list (nat * nat)) :
  (a, b) ∈ shift d spans → ∃ a' b', a = a' + d ∧ b = b' + d ∧ (a', b') ∈ spans.
Proof.
  unfold shift. intros ([a' b'] & [= -> ->] & H)%list_elem_of_fmap.
  by exists a', b'.
Qed.

(** Cutting the text short takes no code away that ends before the cut,
    and gives no code to a marker that had none. *)
Lemma control_char_take (k : nat) (t : str) :
  control_char t = false → control_char (take k t) = false.
Proof. by destruct k, t. Qed.

Lemma extended_code_take (k : nat) (t : str) :
  extended_code (take k t) = true → extended_code t = true.
Proof.
  do 7 (destruct t as [|? t]; [by destruct k as [|[|[|[|[|[|[|k]]]]]]]|]).
  by destruct k as [|[|[|[|[|[|[|k]]]]]]].
Qed.

Lemma code_length_take (k n : nat) (t : str) :
  code_length t = S n → S n ≤ k → code_length (take k t) = S n.
Proof.
  intros Hn Hk. unfold code_length.
  destruct (code_length_cases t) as [[? _]|[(? & E1 & E7)|(? & E1 & E7)]];
    [congruence|..].
  - assert (n = 0) as -> by congruence.
    destruct (extended_code (take k t)) eqn:E.
    { apply extended_code_take in E. congruence. }
    destruct k as [|k]; [lia|].
    destruct t; simpl in *; [done|by rewrite E1].
  - assert (n = 6) as -> by congruence.
    do 7 (destruct t as [|? t]; [done|]).
    do 7 (destruct k as [|k]; [lia|]). simpl in *. by rewrite E7.
Qed.

(** C9, as the code has it: a caret that is the last character of the
    string, or stands before a line feed, and that no earlier marker takes
    as its control character or into its extended code (no match span
    begins before it and ends after it), lies in no match span and is
    copied to the output between the stripped text before it and the
    stripped text after it. *)
Theorem unpaired_caret_survives (text : str) (i : nat) :
  text !! i = Some caret →
  (text !! S i = None ∨ text !! S i = Some LF) →
  (∀ a b, (a, b) ∈ finditer color_pattern text → ¬ (a < i < b)) →
  (∀ a b, (a, b) ∈ finditer color_pattern text → ¬ (a ≤ i < b)) ∧
  strip_colors text
  = strip_colors (take i text) ++ caret :: strip_colors (drop (S i) text).
Proof.
  revert i.
  induction text as [|c t Hc IH|t n Hn IH] using strip_colors_ind;
    intros i Hi Hnext Hspans.
  - done.
  - rewrite finditer_keep in Hspans |- * by done.
    destruct i as [|j]; simpl in Hi.
    + injection Hi as ->. split.
      * intros a b (a' & b' & -> & -> & _)%elem_of_shift_inv. lia.
      * by rewrite strip_colors_keep.
    + destruct (IH j Hi Hnext) as [IH1 IH2].
      { intros a b Hab. apply (elem_of_shift 1) in Hab.
        apply Hspans in Hab. lia. }
      split.
      * intros a b (a' & b' & -> & -> & Hab)%elem_of_shift_inv.
        apply IH1 in Hab. lia.
      * simpl. rewrite !strip_colors_keep, IH2 at 1; [done|..|done].
        destruct (c =? caret)%N; [|done]. by apply control_char_take.
  - rewrite (finditer_code t n Hn) in Hspans |- *.
    destruct i as [|j]; simpl in Hi, Hnext.
    { destruct (code_length_cases t) as [[? _]|[(_ & E & _)|(_ & E & _)]];
        [congruence|..]; destruct t as [|x t]; try done; simpl in *;
        destruct Hnext as [|[= ->]]; done. }
    assert (S n ≤ j) as Hj.
    { specialize (Hspans 0 (S (S n))). rewrite elem_of_cons in Hspans.
      specialize (Hspans (or_introl eq_refl)). lia. }
    destruct (IH (j - S n)) as [IH1 IH2].
    { rewrite lookup_drop, <- Hi. f_equal. lia. }
    { rewrite lookup_drop. replace (S n + S (j - S n)) with (S j) by lia.
      done. }
    { intros a b Hab. apply (elem_of_shift (S (S n))) in Hab.
      specialize (Hspans _ _ (list_elem_of_further _ _ _ Hab)). lia. }
    split.
    + intros a b [[= -> ->]|Hab]%elem_of_cons; [lia|].
      apply elem_of_shift_inv in Hab as (a' & b' & -> & -> & Hab).
      apply IH1 in Hab. lia.
    + simpl. rewrite (strip_colors_code t n Hn), IH2.
      rewrite (strip_colors_code (take j t) n) by by apply code_length_take.
      rewrite take_drop_commute, drop_drop.
      by replace (S n + (j - S n)) with j by lia;
         replace (S n + S (j - S n)) with (S j) by lia.
Qed.

Lemma unpaired_caret_survives_witness :
  strip_colors (py "^1Red^")
  = strip_colors (take 5 (py "^1Red^"))
      ++ caret :: strip_colors (drop 6 (py "^1Red^")).
Proof.
  apply (unpaired_caret_survives (py "^1Red^") 5).
  - reflexivity.
  - left. reflexivity.
  - intros a b Hab. vm_compute in Hab.
    apply list_elem_of_singleton in Hab as [= -> ->]. lia.
Defined.

(** C9, as it is stated, fails: in the string of two carets the second
    caret is the last character, yet the one match covers it and the
    output is empty. *)
Lemma final_caret_consumed :
  py "^^" !! 1 = Some caret ∧ py "^^" !! 2 = None
  ∧ finditer color_pattern (py "^^") = [(0, 2)]
  ∧ strip_colors (py "^^") = [].
Proof. by vm_compute. Qed.

Lemma extended_code_spec (t : str) :
  extended_code t = true ↔
  ∃ six rest, t = letter_X :: six ++ rest ∧ length six = 6
              ∧ Forall (λ c, c ≠ LF) six.
Proof.
  split.
  - intros H. do 7 (destruct t as [|? t]; [done|]). simpl in H.
    repeat match goal with
           | H : _ && _ = true |- _ => apply andb_prop in H as [? H]
           | H : (_ =? _)%N = true |- _ => apply N.eqb_eq in H as ->
           | H : code_char _ = true |- _ =>
               apply negb_true_iff, N.eqb_neq in H
           end.
    eexists [_; _; _; _; _; _], t. repeat split.
    repeat constructor; done.
  - intros (six & rest & -> & Hlen & Hsix).
    do 6 (destruct six as [|? six]; [done|]).
    destruct six; [|done]. simpl.
    unfold code_char.
    repeat match goal with
           | H : Forall _ (_ :: _) |- _ => inversion_clear H
           | H : ?c ≠ LF |- _ => apply N.eqb_neq in H; rewrite H
           end.
    done.
Qed.

(** C10: the extended branch is taken exactly when the marker is followed
    by X and six more characters none of which is a line feed, and then
    marker and code, eight characters, go; otherwise a marker followed by
    one character other than the line feed goes with that character alone.
    So "^Xab" gives "ab", and a doubled marker is removed whole. *)
Theorem extended_branch_rule (t : str) :
  (extended_code t = true ↔
     ∃ six rest, t = letter_X :: six ++ rest ∧ length six = 6
                 ∧ Forall (λ c, c ≠ LF) six)
  ∧ match_len color_pattern (caret :: t)
    = (if extended_code t then Some 8
       else if control_char t then Some 2 else None)
  ∧ strip_colors (caret :: t)
    = (if extended_code t then strip_colors (drop 7 t)
       else if control_char t then strip_colors (drop 1 t)
       else caret :: strip_colors t)
  ∧ strip_colors (py "^Xab") = py "ab"
  ∧ strip_colors (py "^^") = [].
Proof.
  split; [apply extended_code_spec|].
  rewrite color_match, strip_colors_cons, N.eqb_refl. unfold code_length.
  by destruct (extended_code t), (control_char t).
Qed.

End strip_colors_facts.

(** * Properties of get_info and get_status *)

Section protocol_facts.
Context `{Quake2}.

Lemma contains_header_mismatch (header response_header : str) :
  contains header (header_mismatch header response_header)
  ∧ contains response_header (header_mismatch header response_header).
Proof.
  unfold contains, header_mismatch. split.
  - by eexists _, _.
  - exists (py "Packet header mismatch. Received: " ++ header
            ++ py ". Expected: "), (py ".").
    by rewrite <- !app_assoc.
Qed.

(** The header check of [get_info] turns down every other token. *)
Lemma get_info_rejects (self : Quake3) (strip_color : bool)
    (response_data : bytes) (header : str) (br : BinaryReader) :
  _connect_and_send (pyb "getinfo opengsq") = Ok response_data →
  read_string (new_reader response_data) (_delimiter1 self) = Ok (header, br) →
  header ≠ info_response_header →
  get_info self strip_color
  = Raise (InvalidPacketException (header_mismatch header info_response_header)).
Proof.
  intros Hsend Hread Hne.
  unfold get_info. rewrite Hsend. simpl. rewrite Hread. simpl.
  by rewrite bool_decide_true.
Qed.

(** C1: a response whose leading delimiter-terminated token is not
    "infoResponse\n" makes [get_info] raise [InvalidPacketException], and
    the message holds the token received and the token expected. *)
Theorem get_info_header_mismatch (self : Quake3) (strip_color : bool)
    (response_data : bytes) (header : str) (br : BinaryReader) :
  _connect_and_send (pyb "getinfo opengsq") = Ok response_data →
  read_string (new_reader response_data) (_delimiter1 self) = Ok (header, br) →
  header ≠ info_response_header →
  ∃ msg, get_info self strip_color = Raise (InvalidPacketException msg)
         ∧ contains header msg ∧ contains info_response_header msg.
Proof.
  intros Hsend Hread Hne.
  exists (header_mismatch header info_response_header).
  split; [|apply contains_header_mismatch].
  by apply (get_info_rejects _ _ response_data header br).
Qed.

(** Past the header check, [get_info] is the decoding followed by the
    optional pass over the host name. *)
Lemma get_info_accepts (self : Quake3) (strip_color : bool)
    (response_data : bytes) (br : BinaryReader) :
  _connect_and_send (pyb "getinfo opengsq") = Ok response_data →
  read_string (new_reader response_data) (_delimiter1 self)
  = Ok (info_response_header, br) →
  get_info self strip_color =
    '(info, _) ← _parse_info self br;
    if negb strip_color then Ok info
    else Ok match info !! py "hostname" with
            | Some hostname => <[py "hostname" := strip_colors hostname]> info
            | None => info
            end.
Proof.
  intros Hsend Hread.
  unfold get_info. rewrite Hsend. simpl. by rewrite Hread.
Qed.

(** The pass over one key of a map leaves the rest of the map alone. *)
Lemma strip_key_same_but_at (key : str) (m : gmap (list N) (list N)) :
  same_but_at key m
    match m !! key with
    | Some v => <[key := strip_colors v]> m
    | None => m
    end.
Proof.
  split.
  - intros k Hk. destruct (m !! key); [by rewrite lookup_insert_ne|done].
  - by intros ->.
Qed.

Lemma strip_key_lookup (key : str) (m : gmap (list N) (list N)) :
  match m !! key with
  | Some v => <[key := strip_colors v]> m
  | None => m
  end !! key = strip_colors <$> m !! key.
Proof.
  destruct (m !! key) eqn:E; [by rewrite lookup_insert_eq|by rewrite E].
Qed.

Lemma strip_player_names_frame (players : list (gmap (list N) value)) :
  Forall (λ p, ∀ v, p !! py "name" = Some v → ∃ s, v = Text s) players →
  ∃ players', strip_player_names players = Ok players'
              ∧ Forall2 (same_but_at (py "name")) players players'.
Proof.
  induction 1 as [|p players Hp _ (players' & Hrun & IH)].
  - by exists [].
  - simpl. unfold strip_player_name.
    destruct (p !! py "name") as [v|] eqn:E.
    + destruct (Hp v eq_refl) as [name ->]. simpl. rewrite Hrun. simpl.
      eexists. split; [done|]. constructor; [|done]. split.
      * intros k Hk. by rewrite lookup_insert_ne.
      * by rewrite E.
    + simpl. rewrite Hrun. simpl.
      eexists. split; [done|]. by constructor.
Qed.

(** C7: with [strip_color] true, [get_info] returns the info map as parsed
    but for the value of "hostname", and [get_status] returns the info map
    as parsed but for "sv_hostname" and every player as parsed but for
    "name" (a text, as [strip_colors] takes); a map without its key comes
    back as it was parsed. *)
Theorem sanitization_frame (self : Quake3) :
  (∀ response_data br info br',
     _connect_and_send (pyb "getinfo opengsq") = Ok response_data →
     read_string (new_reader response_data) (_delimiter1 self)
     = Ok (info_response_header, br) →
     _parse_info self br = Ok (info, br') →
     ∃ info', get_info self true = Ok info'
              ∧ same_but_at (py "hostname") info info'
              ∧ info' !! py "hostname"
                = strip_colors <$> info !! py "hostname")
  ∧ (∀ br parsed br1 parsed_players br2,
       _get_response_binary_reader self = Ok br →
       _parse_info self br = Ok (parsed, br1) →
       _parse_players self br1 = Ok (parsed_players, br2) →
       Forall (λ p, ∀ v, p !! py "name" = Some v → ∃ s, v = Text s)
         parsed_players →
       ∃ status, get_status self true = Ok status
                 ∧ same_but_at (py "sv_hostname") parsed (info status)
                 ∧ info status !! py "sv_hostname"
                   = strip_colors <$> parsed !! py "sv_hostname"
                 ∧ Forall2 (same_but_at (py "name"))
                     parsed_players (players status)).
Proof.
  split.
  - intros response_data br info0 br' Hsend Hread Hparse.
    rewrite (get_info_accepts _ _ _ _ Hsend Hread), Hparse. simpl.
    eexists. split; [done|].
    split; [apply strip_key_same_but_at|apply strip_key_lookup].
  - intros br parsed br1 parsed_players br2 Hbr Hparse Hplayers Hnames.
    destruct (strip_player_names_frame _ Hnames) as (players' & Hrun & Hframe).
    unfold get_status. rewrite Hbr. simpl. rewrite Hparse. simpl.
    rewrite Hplayers. simpl. rewrite Hrun. simpl.
    eexists. split; [done|]. simpl.
    split; [apply strip_key_same_but_at|].
    split; [apply strip_key_lookup|done].
Qed.

(** C8: the header [get_info] checks, "infoResponse\n", is not the
    [_response_header] "statusResponse\n" that [__init__] sets for
    [get_status]: [get_info] turns a response down that carries the status
    header and goes on to the decoding on one that carries its own. *)
Theorem info_header_distinct (base : Quake3) (strip_color : bool) :
  _response_header (__init__ base) = py "statusResponse" ++ [LF]
  ∧ info_response_header = py "infoResponse" ++ [LF]
  ∧ info_response_header ≠ _response_header (__init__ base)
  ∧ (∀ response_data br,
       _connect_and_send (pyb "getinfo opengsq") = Ok response_data →
       read_string (new_reader response_data) (_delimiter1 (__init__ base))
       = Ok (_response_header (__init__ base), br) →
       get_info (__init__ base) strip_color
       = Raise (InvalidPacketException
                  (header_mismatch (_response_header (__init__ base))
                     info_response_header)))
  ∧ (∀ response_data br,
       _connect_and_send (pyb "getinfo opengsq") = Ok response_data →
       read_string (new_reader response_data) (_delimiter1 (__init__ base))
       = Ok (info_response_header, br) →
       get_info (__init__ base) false
       = '(info, _) ← _parse_info (__init__ base) br; Ok info).
Proof.
  split; [done|]. split; [done|]. split; [done|]. split.
  - intros response_data br Hsend Hread.
    by apply (get_info_rejects _ _ response_data _ br).
  - intros response_data br Hsend Hread.
    by rewrite (get_info_accepts _ _ _ _ Hsend Hread).
Qed.

End protocol_facts.

(** * The scenarios *)

Section scenarios.

(** C2, as the code has it: on the info response of the scenario, with
    field delimiter "\\" and [strip_color] at its default, [get_info]
    returns {"hostname": "RedServer", "gametype": "ffa"}: each marker goes
    with the one character after it, the text between stays. *)
Theorem scenario_info_stripped :
  @get_info (server info_response) quake3 true
  = Ok {[ py "hostname" := py "RedServer"; py "gametype" := py "ffa" ]}.
Proof. vm_compute. reflexivity. Qed.

(** C2, as it is stated, fails: the map returned is not the one with
    "Server" for the host name. *)
Lemma scenario_info_not_Server :
  @get_info (server info_response) quake3 true
  ≠ Ok {[ py "hostname" := py "Server"; py "gametype" := py "ffa" ]}.
Proof.
  intros Heq.
  assert (∀ m : gmap (list N) (list N),
            @get_info (server info_response) quake3 true = Ok m →
            m !! py "hostname" = Some (py "RedServer")) as Hhost.
  { intros m. vm_compute. by intros [= <-]. }
  apply Hhost in Heq. vm_compute in Heq. discriminate.
Qed.

(** C6: on the same response, [get_info] with [strip_color] false returns
    the info map as it was on the wire, the host name "^1Red^7Server". *)
Theorem scenario_info_raw :
  @get_info (server info_response) quake3 false
  = Ok {[ py "hostname" := py "^1Red^7Server"; py "gametype" := py "ffa" ]}.
Proof. vm_compute. reflexivity. Qed.

Lemma get_info_header_mismatch_witness :
  ∃ msg, @get_info (server wrong_response) quake3 true
         = Raise (InvalidPacketException msg)
         ∧ contains (py "wrongResponse" ++ [LF]) msg
         ∧ contains info_response_header msg.
Proof.
  apply (@get_info_header_mismatch (server wrong_response) quake3 true
           wrong_response (py "wrongResponse" ++ [LF])
           {| buffer := wrong_response; stream_position := 15 |}).
  - reflexivity.
  - vm_compute. reflexivity.
  - vm_compute. discriminate.
Defined.

Lemma sanitization_frame_witness :
  (∃ info', @get_info (server info_response) quake3 true = Ok info'
            ∧ same_but_at (py "hostname")
                {[ py "hostname" := py "^1Red^7Server";
                   py "gametype" := py "ffa" ]} info'
            ∧ info' !! py "hostname"
              = strip_colors
                  <$> ({[ py "hostname" := py "^1Red^7Server";
                          py "gametype" := py "ffa" ]} : gmap (list N) (list N))
                      !! py "hostname")
  ∧ (∃ status, @get_status (server status_response) quake3 true = Ok status
               ∧ Forall2 (same_but_at (py "name"))
                   [ {[ py "frags" := Number 3; py "ping" := Number 40;
                        py "name" := Text (py "^4Blue^7Bot") ]} ]
                   (players status)).
Proof.
  split.
  - apply (proj1 (@sanitization_frame (server info_response) quake3)
             info_response
             {| buffer := info_response; stream_position := 14 |}
             _ {| buffer := info_response; stream_position := 14 |}).
    + reflexivity.
    + vm_compute. reflexivity.
    + vm_compute. reflexivity.
  - destruct (proj2 (@sanitization_frame (server status_response) quake3)
                {| buffer := status_response; stream_position := 16 |}
                {[ py "sv_hostname" := py "^1Red^7Server";
                   py "mapname" := py "q3dm17" ]}
                {| buffer := status_response; stream_position := 16 |}
                [ {[ py "frags" := Number 3; py "ping" := Number 40;
                     py "name" := Text (py "^4Blue^7Bot") ]} ]
                {| buffer := status_response; stream_position := 16 |})
      as (status & Hrun & _ & _ & Hplayers).
    + vm_compute. reflexivity.
    + vm_compute. reflexivity.
    + reflexivity.
    + constructor; [|constructor]. intros v Hv.
      vm_compute in Hv. injection Hv as <-. by eexists.
    + by exists status.
Defined.

End scenarios.

(** * The status header, on the decoding of the specification *)

Section status_header.
Context (transport : bytes → result bytes).
Context (parse_players :
           Quake3 → BinaryReader
           → result (list (gmap (list N) value) * BinaryReader)).

(** [get_status] checks the token against [_response_header]: any other
    token, "infoResponse\n" among them, is turned down. *)
Lemma spec_get_status_checks_status_header (base : Quake3)
    (strip_color : bool) (response_data : bytes) (header : str)
    (br : BinaryReader) :
  transport (pyb "getstatus") = Ok response_data →
  spec_model.read_delimited (new_reader response_data) (_delimiter1 base)
  = Ok (header, br) →
  header ≠ py "statusResponse" ++ [LF] →
  @get_status (spec_model.quake2 transport parse_players) (__init__ base)
    strip_color
  = Raise (InvalidPacketException
             (header_mismatch header (py "statusResponse" ++ [LF]))).
Proof.
  intros Hsend Hread Hne.
  unfold get_status. simpl. unfold spec_model.get_response_binary_reader.
  simpl. rewrite Hsend. simpl.
  unfold spec_model.validate_header. rewrite Hread. simpl.
  by rewrite bool_decide_false.
Qed.

End status_header.

Lemma info_header_distinct_witness :
  @get_info (server status_response) quake3 true
  = Raise (InvalidPacketException
             (header_mismatch (py "statusResponse" ++ [LF])
                info_response_header))
  ∧ @get_info (server info_response) quake3 false
    = '(info, _) ← spec_model.decode_info quake3
                     {| buffer := info_response; stream_position := 14 |};
      Ok info.
Proof.
  destruct (@info_header_distinct (server status_response) quake3 true)
    as (_ & _ & _ & Hreject & _).
  destruct (@info_header_distinct (server info_response) quake3 false)
    as (_ & _ & _ & _ & Haccept).
  split.
  - apply (Hreject status_response
             {| buffer := status_response; stream_position := 16 |}).
    + reflexivity.
    + vm_compute. reflexivity.
  - apply (Haccept info_response
             {| buffer := info_response; stream_position := 14 |}).
    + reflexivity.
    + vm_compute. reflexivity.
Defined.

(** * Worked examples *)

(** A line feed among the six characters after X: the extended branch
    fails and the single character branch takes the X alone. *)
Example strip_colors_short_extended_code :
  strip_colors (py "^X12345" ++ [LF] ++ py "6") = py "12345" ++ [LF] ++ py "6".
Proof. by vm_compute. Qed.

Example strip_colors_extended_code :
  strip_colors (py "a^X123456b") = py "ab".
Proof. by vm_compute. Qed.

(** A caret before a line feed, reached by the pass, stays. *)
Example strip_colors_caret_before_newline :
  strip_colors (py "^" ++ [LF] ++ py "^1x") = py "^" ++ [LF] ++ py "x".
Proof. by vm_compute. Qed.

(** A number where a player's name should be: [re] raises. *)
Example strip_player_name_not_text :
  strip_player_name {[ py "name" := Number 7 ]} = Raise TypeError.
Proof. by vm_compute. Qed.

(** * More on strip_colors *)

Section strip_colors_more.
Import re re_facts.

(** X1: [strip_colors] only takes characters away: what it returns is the
    text with some characters left out, in the order they had, so it is
    never longer than the text. *)
Theorem strip_colors_sublist (text : str) :
  strip_colors text `sublist_of` text
  ∧ length (strip_colors text) ≤ length text.
Proof.
  assert (strip_colors text `sublist_of` text) as Hsub.
  { induction text as [|c t Hc IH|t n Hn IH] using strip_colors_ind.
    - done.
    - rewrite strip_colors_keep by done. by apply sublist_skip.
    - rewrite (strip_colors_code t n Hn).
      apply sublist_cons. etrans; [apply IH|apply sublist_drop]. }
  split; [done|by apply sublist_length].
Qed.

Lemma no_color_code_lookup (text : str) (i : nat) :
  no_color_code text = true →
  text !! i = Some caret →
  text !! S i = None ∨ text !! S i = Some LF.
Proof.
  revert i. induction text as [|c t IH]; intros i; [done|]. simpl.
  intros [Hc Ht]%andb_prop Hi. destruct i as [|i]; [|by apply IH].
  injection Hi as ->. apply negb_true_iff in Hc. simpl in Hc.
  destruct t as [|x t]; [by left|]. right. simpl in *.
  by apply negb_false_iff, N.eqb_eq in Hc as ->.
Qed.

(** X2: no colour code is left in what [strip_colors] returns: a caret of
    the output is its last character or stands before a line feed. *)
Theorem strip_colors_clean (text : str) (i : nat) :
  strip_colors text !! i = Some caret →
  strip_colors text !! S i = None ∨ strip_colors text !! S i = Some LF.
Proof. apply no_color_code_lookup, no_color_code_strip_colors. Qed.

Lemma strip_colors_clean_witness :
  strip_colors (py "^1a^") !! 2 = None
  ∨ strip_colors (py "^1a^") !! 2 = Some LF.
Proof. apply (strip_colors_clean (py "^1a^") 1). reflexivity. Defined.

Lemma control_char_app_LF (a b : str) :
  control_char (a ++ LF :: b) = control_char a.
Proof. by destruct a. Qed.

Lemma extended_code_app_LF (a b : str) :
  extended_code (a ++ LF :: b) = extended_code a.
Proof.
  unfold extended_code, code_char.
  do 7 (destruct a as [|? a];
        [simpl; repeat case_match; simpl;
         rewrite ?andb_false_r, ?andb_false_l; done|]).
  done.
Qed.

Lemma code_length_app_LF (a b : str) :
  code_length (a ++ LF :: b) = code_length a.
Proof.
  unfold code_length. by rewrite extended_code_app_LF, control_char_app_LF.
Qed.

(** X3: a colour code never reaches over a line feed, so a text of two
    parts joined by a line feed is stripped part by part. *)
Theorem strip_colors_lines (a b : str) :
  strip_colors (a ++ LF :: b) = strip_colors a ++ LF :: strip_colors b.
Proof.
  induction a as [|c t Hc IH|t n Hn IH] using strip_colors_ind.
  - by rewrite strip_colors_nil, !app_nil_l, strip_colors_keep.
  - rewrite <- app_comm_cons, !strip_colors_keep, IH; [done..|].
    by rewrite control_char_app_LF.
  - rewrite <- app_comm_cons.
    rewrite (strip_colors_code t n Hn).
    rewrite (strip_colors_code (t ++ LF :: b) n)
      by by rewrite code_length_app_LF.
    rewrite drop_app_le; [done|]. rewrite <- Hn. apply code_length_le.
Qed.

(** X4: every span [strip_colors] removes begins at a caret, is two or
    eight characters long and lies within the text. *)
Theorem removed_spans_shape (text : str) :
  Forall (λ ab, text !! ab.1 = Some caret
                ∧ (ab.2 = ab.1 + 2 ∨ ab.2 = ab.1 + 8)
                ∧ ab.2 ≤ length text)
    (finditer color_pattern text).
Proof.
  induction text as [|c t Hc IH|t n Hn IH] using strip_colors_ind.
  - constructor.
  - rewrite finditer_keep by done. unfold shift.
    apply Forall_fmap. eapply List.Forall_impl; [|apply IH].
    intros [a b] (Ha & Hb & Hlen). simpl in *.
    rewrite Nat.add_1_r. simpl. repeat split; [done|lia..].
  - rewrite (finditer_code t n Hn).
    pose proof (code_length_le t) as Hle.
    constructor.
    + simpl. split; [done|]. split; [|lia].
      destruct (code_length_cases t) as [[? _]|[[? _]|[? _]]]; lia.
    + unfold shift. apply Forall_fmap. eapply List.Forall_impl; [|apply IH].
      intros [a b] (Ha & Hb & Hlen). simpl in *.
      rewrite length_drop in Hlen. rewrite lookup_drop in Ha.
      replace (a + S (S n)) with (S (S n + a)) by lia. simpl.
      repeat split; [done|lia..].
Qed.

(** X5: text before the first caret is copied as it is, whatever comes
    after it. *)
Theorem strip_colors_plain_prefix (plain rest : str) :
  Forall (λ c, c ≠ caret) plain →
  strip_colors (plain ++ rest) = plain ++ strip_colors rest.
Proof.
  induction 1 as [|c plain Hc _ IH]; [done|].
  rewrite <- !app_comm_cons, strip_colors_keep, IH; [done|].
  by apply N.eqb_neq in Hc as ->.
Qed.

Lemma strip_colors_plain_prefix_witness :
  strip_colors (py "Red" ++ py "^7Server") = py "Red" ++ strip_colors (py "^7Server").
Proof.
  apply strip_colors_plain_prefix. repeat constructor; by vm_compute.
Defined.

(** X6: a run of carets goes in pairs, each caret taking the next as its
    control character; of an odd run the last caret is left. *)
Theorem strip_colors_carets (n : nat) :
  strip_colors (replicate n caret) = replicate (n `mod` 2) caret.
Proof.
  induction n as [n IH] using lt_wf_ind.
  destruct n as [|[|n]]; [done..|].
  change (replicate (S (S n)) caret)
    with (caret :: caret :: replicate n caret).
  rewrite (strip_colors_code (caret :: replicate n caret) 0).
  - change (drop 1 (caret :: replicate n caret)) with (replicate n caret).
    rewrite IH by lia. f_equal.
    replace (S (S n)) with (n + 1 * 2) by lia.
    by rewrite Nat.Div0.mod_add.
  - unfold code_length. simpl.
    by repeat (destruct n as [|n]; simpl; try done).
Qed.

End strip_colors_more.

(** * More on get_info and get_status *)

Section protocol_more.
Context `{Quake2}.

(** X7: for a server whose host name is absent or holds no colour code,
    the flag makes no difference: [get_info] returns the parsed map. *)
Theorem get_info_flag_irrelevant (self : Quake3) (strip_color : bool)
    (response_data : bytes) (br br' : BinaryReader)
    (parsed : gmap (list N) (list N)) :
  _connect_and_send (pyb "getinfo opengsq") = Ok response_data →
  read_string (new_reader response_data) (_delimiter1 self)
  = Ok (info_response_header, br) →
  _parse_info self br = Ok (parsed, br') →
  (∀ hostname, parsed !! py "hostname" = Some hostname →
               no_color_code hostname = true) →
  get_info self strip_color = Ok parsed.
Proof.
  intros Hsend Hread Hparse Hclean.
  rewrite (get_info_accepts _ _ _ _ Hsend Hread), Hparse. simpl.
  destruct strip_color; [|done]. simpl.
  destruct (parsed !! py "hostname") as [hostname|] eqn:E; [|done].
  by rewrite strip_colors_no_color_code, insert_id by auto.
Qed.

(** X8: with [strip_color] true, [get_info] returns a map with the keys of
    the parsed one, and a host name in which no colour code is left. *)
Theorem get_info_keys_and_clean_hostname (self : Quake3)
    (response_data : bytes) (br br' : BinaryReader)
    (parsed : gmap (list N) (list N)) :
  _connect_and_send (pyb "getinfo opengsq") = Ok response_data →
  read_string (new_reader response_data) (_delimiter1 self)
  = Ok (info_response_header, br) →
  _parse_info self br = Ok (parsed, br') →
  ∃ returned, get_info self true = Ok returned
              ∧ dom returned = dom parsed
              ∧ (∀ hostname, returned !! py "hostname" = Some hostname →
                             no_color_code hostname = true).
Proof.
  intros Hsend Hread Hparse.
  rewrite (get_info_accepts _ _ _ _ Hsend Hread), Hparse. simpl.
  eexists. split; [done|].
  destruct (parsed !! py "hostname") as [hostname|] eqn:E.
  - split; [by apply dom_insert_lookup_L|].
    intros h. rewrite lookup_insert_eq. intros [= <-].
    apply no_color_code_strip_colors.
  - split; [done|]. intros h Hh. congruence.
Qed.

(** The loop over the players keeps the keys of every record and leaves
    no colour code in a name. *)
Lemma strip_player_names_keys (parsed returned : list (gmap (list N) value)) :
  strip_player_names parsed = Ok returned →
  Forall2 (λ p p', dom p' = dom p) parsed returned
  ∧ Forall (λ p', ∀ v, p' !! py "name" = Some v →
                       ∃ name, v = Text name ∧ no_color_code name = true)
      returned.
Proof.
  revert returned. induction parsed as [|p parsed IH]; intros returned; simpl.
  - intros [= <-]. by split; constructor.
  - unfold strip_player_name.
    destruct (p !! py "name") as [[name|n]|] eqn:E; simpl; [| done |];
      (destruct (strip_player_names parsed) as [rest|e]; simpl; [|done]);
      intros [= <-]; destruct (IH rest eq_refl) as [IH1 IH2];
      (split; constructor; try done).
    + by apply dom_insert_lookup_L.
    + intros v. rewrite lookup_insert_eq. intros [= <-].
      eexists. split; [done|]. apply no_color_code_strip_colors.
    + intros v Hv. congruence.
Qed.

(** X9: with [strip_color] true, [get_status] returns as many players as
    were parsed, in their order, each with the keys it had; the info map
    keeps its keys too, and no colour code is left in "sv_hostname" nor in
    the name of a player. *)
Theorem get_status_keys_and_clean_names (self : Quake3)
    (br br1 br2 : BinaryReader) (parsed : gmap (list N) (list N))
    (parsed_players : list (gmap (list N) value)) (status : Status) :
  _get_response_binary_reader self = Ok br →
  _parse_info self br = Ok (parsed, br1) →
  _parse_players self br1 = Ok (parsed_players, br2) →
  get_status self true = Ok status →
  dom (info status) = dom parsed
  ∧ (∀ sv_hostname, info status !! py "sv_hostname" = Some sv_hostname →
                    no_color_code sv_hostname = true)
  ∧ Forall2 (λ p p', dom p' = dom p) parsed_players (players status)
  ∧ Forall (λ p', ∀ v, p' !! py "name" = Some v →
                       ∃ name, v = Text name ∧ no_color_code name = true)
      (players status).
Proof.
  intros Hbr Hparse Hplayers.
  unfold get_status. rewrite Hbr. simpl. rewrite Hparse. simpl.
  rewrite Hplayers. simpl.
  destruct (strip_player_names parsed_players) as [returned|e] eqn:Hrun;
    simpl; [|done].
  intros [= <-]. simpl.
  destruct (strip_player_names_keys _ _ Hrun) as [Hdom Hclean].
  destruct (parsed !! py "sv_hostname") as [sv_hostname|] eqn:E.
  - split; [by apply dom_insert_lookup_L|]. split; [|done].
    intros h. rewrite lookup_insert_eq. intros [= <-].
    apply no_color_code_strip_colors.
  - split; [done|]. split; [|done]. intros h Hh. congruence.
Qed.

(** The loop over the players fails on a name that is a number, and on
    nothing else. *)
Lemma strip_player_names_TypeError (parsed : list (gmap (list N) value)) :
  (strip_player_names parsed = Raise TypeError
   ↔ ∃ p n, p ∈ parsed ∧ p !! py "name" = Some (Number n))
  ∧ (∀ e, strip_player_names parsed = Raise e → e = TypeError).
Proof.
  induction parsed as [|p parsed [IH1 IH2]]; simpl.
  - split; [|done]. split; [done|].
    intros (p & n & Hp & _). by apply elem_of_nil in Hp.
  - unfold strip_player_name.
    destruct (p !! py "name") as [[name|n]|] eqn:E; simpl.
    + destruct (strip_player_names parsed) as [rest|e] eqn:Hrun; simpl.
      * split; [|done]. split; [done|].
        intros (q & n & [->|Hq]%elem_of_cons & Hn); [congruence|].
        assert (Ok rest = Raise TypeError) by (apply IH1; eauto). done.
      * rewrite (IH2 e eq_refl) in *. split; [|by intros ? [= <-]].
        split; [|done]. intros _.
        destruct (proj1 IH1 eq_refl) as (q & n & Hq & Hn).
        exists q, n. split; [by apply elem_of_cons; right|done].
    + split; [|by intros ? [= <-]]. split; [|done].
      intros _. exists p, n. split; [apply list_elem_of_here|done].
    + destruct (strip_player_names parsed) as [rest|e] eqn:Hrun; simpl.
      * split; [|done]. split; [done|].
        intros (q & n & [->|Hq]%elem_of_cons & Hn); [congruence|].
        assert (Ok rest = Raise TypeError) by (apply IH1; eauto). done.
      * rewrite (IH2 e eq_refl) in *. split; [|by intros ? [= <-]].
        split; [|done]. intros _.
        destruct (proj1 IH1 eq_refl) as (q & n & Hq & Hn).
        exists q, n. split; [by apply elem_of_cons; right|done].
Qed.

(** X10: once the response is decoded, [get_status] with [strip_color]
    true raises [TypeError] exactly when the name of some player is a
    number, while with [strip_color] false it returns the decoded status
    whatever the names are. *)
Theorem get_status_TypeError (self : Quake3)
    (br br1 br2 : BinaryReader) (parsed : gmap (list N) (list N))
    (parsed_players : list (gmap (list N) value)) :
  _get_response_binary_reader self = Ok br →
  _parse_info self br = Ok (parsed, br1) →
  _parse_players self br1 = Ok (parsed_players, br2) →
  (get_status self true = Raise TypeError
   ↔ ∃ p n, p ∈ parsed_players ∧ p !! py "name" = Some (Number n))
  ∧ get_status self false
    = Ok {| info := parsed; players := parsed_players |}.
Proof.
  intros Hbr Hparse Hplayers.
  unfold get_status. rewrite Hbr. simpl. rewrite Hparse. simpl.
  rewrite Hplayers. simpl. split; [|done].
  rewrite <- (proj1 (strip_player_names_TypeError parsed_players)).
  destruct (strip_player_names parsed_players); simpl;
    split; by intros [= ->].
Qed.

(** X11: [get_info] fails only with what the transport, the cursor or the
    decoder raises, handed on as it is, or with the header mismatch. *)
Theorem get_info_failure_modes (self : Quake3) (strip_color : bool)
    (e : exception) :
  get_info self strip_color = Raise e →
  _connect_and_send (pyb "getinfo opengsq") = Raise e
  ∨ ∃ response_data,
      _connect_and_send (pyb "getinfo opengsq") = Ok response_data
      ∧ (read_string (new_reader response_data) (_delimiter1 self) = Raise e
         ∨ ∃ header br,
             read_string (new_reader response_data) (_delimiter1 self)
             = Ok (header, br)
             ∧ (header ≠ info_response_header
                ∧ e = InvalidPacketException
                        (header_mismatch header info_response_header)
                ∨ header = info_response_header
                  ∧ _parse_info self br = Raise e)).
Proof.
  unfold get_info.
  destruct (_connect_and_send _) as [response_data|e0]; simpl;
    [|intros [= <-]; by left].
  intros Hrun. right. exists response_data. split; [done|].
  destruct (read_string _ _) as [[header br]|e0]; simpl in Hrun;
    [|injection Hrun as <-; by left].
  right. exists header, br. split; [done|].
  case_bool_decide as Hne.
  - injection Hrun as <-. by left.
  - right. split; [by destruct (decide (header = info_response_header))|].
    destruct (_parse_info self br) as [[parsed br']|e0]; simpl in Hrun;
      [|by injection Hrun as <-].
    by destruct strip_color.
Qed.

(** X12: [get_status] fails only with what fetching the response or one of
    the two decoders raises, handed on as it is, or, with [strip_color]
    true, with [TypeError] on a player whose name is a number. *)
Theorem get_status_failure_modes (self : Quake3) (strip_color : bool)
    (e : exception) :
  get_status self strip_color = Raise e →
  _get_response_binary_reader self = Raise e
  ∨ ∃ br, _get_response_binary_reader self = Ok br
      ∧ (_parse_info self br = Raise e
         ∨ ∃ parsed br1, _parse_info self br = Ok (parsed, br1)
             ∧ (_parse_players self br1 = Raise e
                ∨ ∃ parsed_players br2,
                    _parse_players self br1 = Ok (parsed_players, br2)
                    ∧ strip_color = true ∧ e = TypeError
                    ∧ ∃ p n, p ∈ parsed_players
                             ∧ p !! py "name" = Some (Number n))).
Proof.
  unfold get_status.
  destruct (_get_response_binary_reader self) as [br|e0]; simpl;
    [|intros [= <-]; by left].
  intros Hrun. right. exists br. split; [done|].
  destruct (_parse_info self br) as [[parsed br1]|e0]; simpl in Hrun;
    [|injection Hrun as <-; by left].
  right. exists parsed, br1. split; [done|].
  destruct (_parse_players self br1) as [[parsed_players br2]|e0];
    simpl in Hrun; [|injection Hrun as <-; by left].
  right. exists parsed_players, br2. split; [done|].
  destruct strip_color; simpl in Hrun; [|discriminate].
  split; [reflexivity|].
  destruct (strip_player_names parsed_players) as [returned|e0] eqn:Hloop;
    simpl in Hrun; [discriminate|]. injection Hrun as <-.
  destruct (strip_player_names_TypeError parsed_players) as [Hiff Honly].
  pose proof (Honly e0 Hloop) as ->. split; [reflexivity|]. by apply Hiff.
Qed.

End protocol_more.

(** X13: the loop over the players changes nothing the second time: on
    the records it returned it returns them again. *)
Theorem strip_player_names_again (parsed returned : list (gmap (list N) value)) :
  strip_player_names parsed = Ok returned →
  strip_player_names returned = Ok returned.
Proof.
  intros Hrun. apply strip_player_names_keys in Hrun as [_ Hclean].
  induction Hclean as [|p rest Hp _ IH]; [done|]. simpl.
  unfold strip_player_name.
  destruct (p !! py "name") as [v|] eqn:E; simpl.
  - destruct (Hp v eq_refl) as (name & -> & Hname).
    rewrite strip_colors_no_color_code, insert_id by done. simpl.
    by rewrite IH.
  - by rewrite IH.
Qed.

(** * Instances of the properties above *)

Lemma get_info_flag_irrelevant_witness :
  @get_info (server plain_response) quake3 true
  = Ok {[ py "hostname" := py "Server"; py "gametype" := py "ffa" ]}.
Proof.
  apply (@get_info_flag_irrelevant (server plain_response) quake3 true
           plain_response
           {| buffer := plain_response; stream_position := 14 |}
           {| buffer := plain_response; stream_position := 14 |}).
  - reflexivity.
  - vm_compute. reflexivity.
  - vm_compute. reflexivity.
  - intros hostname Hh. vm_compute in Hh. injection Hh as <-.
    vm_compute. reflexivity.
Defined.

Lemma get_info_keys_and_clean_hostname_witness :
  ∃ returned, @get_info (server info_response) quake3 true = Ok returned
    ∧ dom returned
      = dom ({[ py "hostname" := py "^1Red^7Server";
                py "gametype" := py "ffa" ]} : gmap (list N) (list N))
    ∧ (∀ hostname, returned !! py "hostname" = Some hostname →
                   no_color_code hostname = true).
Proof.
  apply (@get_info_keys_and_clean_hostname (server info_response) quake3
           info_response
           {| buffer := info_response; stream_position := 14 |}
           {| buffer := info_response; stream_position := 14 |}).
  - reflexivity.
  - vm_compute. reflexivity.
  - vm_compute. reflexivity.
Defined.

Lemma get_status_keys_and_clean_names_witness :
  Forall2 (λ p p' : gmap (list N) value, dom p' = dom p)
    [ {[ py "frags" := Number 3; py "ping" := Number 40;
         py "name" := Text (py "^4Blue^7Bot") ]} ]
    [ {[ py "frags" := Number 3; py "ping" := Number 40;
         py "name" := Text (py "BlueBot") ]} ].
Proof.
  apply (@get_status_keys_and_clean_names (server status_response) quake3
           {| buffer := status_response; stream_position := 16 |}
           {| buffer := status_response; stream_position := 16 |}
           {| buffer := status_response; stream_position := 16 |}
           {[ py "sv_hostname" := py "^1Red^7Server";
              py "mapname" := py "q3dm17" ]}
           [ {[ py "frags" := Number 3; py "ping" := Number 40;
                py "name" := Text (py "^4Blue^7Bot") ]} ]
           {| info := {[ py "sv_hostname" := py "RedServer";
                         py "mapname" := py "q3dm17" ]};
              players := [ {[ py "frags" := Number 3; py "ping" := Number 40;
                              py "name" := Text (py "BlueBot") ]} ] |}).
  - vm_compute. reflexivity.
  - vm_compute. reflexivity.
  - reflexivity.
  - vm_compute. reflexivity.
Defined.

Lemma get_status_TypeError_witness :
  (@get_status (numbered_server status_response) quake3 true = Raise TypeError
   ↔ ∃ p n, p ∈ [ ({[ py "frags" := Number 3; py "name" := Number 7 ]}
                    : gmap (list N) value) ]
            ∧ p !! py "name" = Some (Number n))
  ∧ @get_status (numbered_server status_response) quake3 false
    = Ok {| info := {[ py "sv_hostname" := py "^1Red^7Server";
                       py "mapname" := py "q3dm17" ]};
            players := [ {[ py "frags" := Number 3;
                            py "name" := Number 7 ]} ] |}.
Proof.
  apply (@get_status_TypeError (numbered_server status_response) quake3
           {| buffer := status_response; stream_position := 16 |}
           {| buffer := status_response; stream_position := 16 |}
           {| buffer := status_response; stream_position := 16 |}).
  - vm_compute. reflexivity.
  - vm_compute. reflexivity.
  - reflexivity.
Defined.

Lemma get_info_failure_modes_witness :
  @_connect_and_send silent_server (pyb "getinfo opengsq")
  = Raise TimeoutError
  ∨ ∃ response_data,
      @_connect_and_send silent_server (pyb "getinfo opengsq")
      = Ok response_data
      ∧ (@read_string silent_server (new_reader response_data)
           (_delimiter1 quake3) = Raise TimeoutError
         ∨ ∃ header br,
             @read_string silent_server (new_reader response_data)
               (_delimiter1 quake3) = Ok (header, br)
             ∧ (header ≠ info_response_header
                ∧ TimeoutError
                  = InvalidPacketException
                      (header_mismatch header info_response_header)
                ∨ header = info_response_header
                  ∧ @_parse_info silent_server quake3 br
                    = Raise TimeoutError)).
Proof.
  apply (@get_info_failure_modes silent_server quake3 true TimeoutError).
  reflexivity.
Defined.

Lemma get_status_failure_modes_witness :
  @get_status (numbered_server status_response) quake3 true
  = Raise TypeError
  ∧ (@_get_response_binary_reader (numbered_server status_response) quake3
     = Raise TypeError
     ∨ ∃ br, @_get_response_binary_reader (numbered_server status_response)
               quake3 = Ok br
         ∧ (@_parse_info (numbered_server status_response) quake3 br
            = Raise TypeError
            ∨ ∃ parsed br1,
                @_parse_info (numbered_server status_response) quake3 br
                = Ok (parsed, br1)
                ∧ (@_parse_players (numbered_server status_response) quake3
                     br1 = Raise TypeError
                   ∨ ∃ parsed_players br2,
                       @_parse_players (numbered_server status_response)
                         quake3 br1 = Ok (parsed_players, br2)
                       ∧ true = true ∧ TypeError = TypeError
                       ∧ ∃ p n, p ∈ parsed_players
                                ∧ p !! py "name" = Some (Number n)))).
Proof.
  assert (@get_status (numbered_server status_response) quake3 true
          = Raise TypeError) as Hrun by (vm_compute; reflexivity).
  split; [exact Hrun|].
  exact (@get_status_failure_modes (numbered_server status_response) quake3
           true TypeError Hrun).
Defined.

Lemma strip_player_names_again_witness :
  strip_player_names [ {[ py "name" := Text (py "BlueBot") ]} ]
  = Ok [ {[ py "name" := Text (py "BlueBot") ]} ].
Proof.
  apply (strip_player_names_again
           [ {[ py "name" := Text (py "^4Blue^7Bot") ]} ]).
  vm_compute. reflexivity.
Defined.
